(** * Response middleware: [checkStatus], [parseJSON] and [ErrorWithResponse]

    A shallow embedding of [src/middleware.js].  The file has three parts:

    - the part of the JavaScript runtime the source relies on: primitive
      values, the relational operators [>=] and [<=] with their numeric
      coercion, a store of objects addressed by reference, and promises
      with [then], [Promise.reject] and the adoption of a returned promise;
    - the three exported items of the source, written against that runtime
      in the order and shape of the source text;
    - the properties of the two middlewares. *)

From Stdlib Require Import QArith Lqa.
From stdpp Require Import gmap strings.

Local Open Scope Q_scope.

(** ** Numbers

    A JavaScript number is a double.  Every finite double is a rational, and
    [<] on finite doubles is [<] on the rationals they denote (the two zeros
    compare equal), so a finite number is modelled by its rational value;
    the three non finite numbers are kept apart. *)

Inductive number :=
| NaN
| NegInfinity
| Fin (q : Q)
| PosInfinity.

(** The numeric case of the abstract relational comparison [x < y]:
    [None] stands for the result [undefined], given when an operand is NaN. *)
Definition IsLessThan (x y : number) : option bool :=
  match x, y with
  | NaN, _ | _, NaN => None
  | PosInfinity, _ => Some false
  | _, PosInfinity => Some true
  | _, NegInfinity => Some false
  | NegInfinity, _ => Some true
  | Fin a, Fin b => Some (negb (Qle_bool b a))
  end.

(** [x >= y] is [false] when [x < y] is [true] or [undefined]. *)
Definition number_ge (x y : number) : bool :=
  match IsLessThan x y with
  | Some false => true
  | Some true | None => false
  end.

(** [x <= y] is [false] when [y < x] is [true] or [undefined]. *)
Definition number_le (x y : number) : bool :=
  match IsLessThan y x with
  | Some false => true
  | Some true | None => false
  end.

(** The strict order as a proposition, for statements about status codes. *)
Definition number_lt (x y : number) : Prop := IsLessThan x y = Some true.

Definition of_Z (z : Z) : number := Fin (inject_Z z).

(** ** Values, objects and the store

    A value is a primitive, a reference to an object of the store, or a
    promise.  The status field of a response holds a primitive: a field that
    is absent reads as [undefined].  The primitives are those a record built
    by a transport or decoded from text can hold. *)

Inductive prim :=
| PUndefined
| PNull
| PBool (b : bool)
| PNum (n : number)
| PStr (s : string).

Abbreviation loc := positive.

(** A promise is given by the way it eventually settles; [Pending] is a
    promise that never settles. *)
Inductive value :=
| VPrim (p : prim)
| VRef (l : loc)
| VPromise (s : settlement)
with settlement :=
| Fulfilled (v : value)
| Rejected (e : value)
| Pending.

Abbreviation Promise := settlement.

(** How the evaluation of an expression or of a function body ends. *)
Inductive completion (A : Type) :=
| Normal (a : A)
| Throw (e : value).
Arguments Normal {A} a.
Arguments Throw {A} e.

(** The [Response] of the transport, as far as the source reads it: the
    fields [status] and [statusText], and the method [json], given by the
    completion of its call (the promise of the parsed body, as a rule). *)
Record Response := {
  status : prim;
  statusText : string;
  json : completion value
}.

Inductive object :=
| OResponse (r : Response)
| OErrorWithResponse (message : string) (response : value)
| ONativeError (name : string).

(** The store of objects and the log of the calls of [json], the receiver of
    the latest call first. *)
Record world := {
  heap : gmap loc object;
  jsonCalls : list loc
}.

(** ** Computations: a state and exception monad *)

Definition M (A : Type) : Type := world -> completion A * world.

#[global] Instance M_ret : MRet M := fun A a w => (Normal a, w).

#[global] Instance M_bind : MBind M := fun A B f m w =>
  match m w with
  | (Normal a, w') => f a w'
  | (Throw e, w') => (Throw e, w')
  end.

Definition throw {A} (e : value) : M A := fun w => (Throw e, w).

(** [new]: the object gets a reference that the store does not use yet. *)
Definition alloc (o : object) : M loc := fun w =>
  let l := fresh (dom (heap w)) in
  (Normal l, {| heap := <[l := o]> (heap w); jsonCalls := jsonCalls w |}).

Definition throwTypeError {A} : M A :=
  l ← alloc (ONativeError "TypeError"); throw (VRef l).

(** [response.status]: reading a property of [undefined] or [null] throws a
    TypeError; an object without the property gives [undefined]. *)
Definition get_status (response : value) : M prim :=
  match response with
  | VPrim PUndefined | VPrim PNull => throwTypeError
  | VRef l => fun w =>
      match heap w !! l with
      | Some (OResponse r) => (Normal (status r), w)
      | _ => (Normal PUndefined, w)
      end
  | _ => mret PUndefined
  end.

(** [response.statusText], [None] for [undefined]. *)
Definition get_statusText (response : value) : M (option string) :=
  match response with
  | VPrim PUndefined | VPrim PNull => throwTypeError
  | VRef l => fun w =>
      match heap w !! l with
      | Some (OResponse r) => (Normal (Some (statusText r)), w)
      | _ => (Normal None, w)
      end
  | _ => mret None
  end.

(** [response.json()]: the call is logged, then completes as the method of
    the response does; a value without the method throws a TypeError. *)
Definition call_json (response : value) : M value :=
  match response with
  | VRef l => fun w =>
      match heap w !! l with
      | Some (OResponse r) =>
          (json r, {| heap := heap w; jsonCalls := l :: jsonCalls w |})
      | _ => throwTypeError w
      end
  | _ => throwTypeError
  end.

(** ** Promises *)

(** [Promise.reject(e)] *)
Definition Promise_reject (e : value) : value := VPromise (Rejected e).

(** A promise resolved with a promise adopts its state; resolved with
    another value it is fulfilled with it. *)
Definition resolve (x : value) : settlement :=
  match x with
  | VPromise s => s
  | _ => Fulfilled x
  end.

(** What the completion of a handler makes of the promise that [then]
    returned: resolved with the value returned, rejected with the value
    thrown. *)
Definition settle (c : completion value) : settlement :=
  match c with
  | Normal x => resolve x
  | Throw e => Rejected e
  end.

(** [promise.then(onFulfilled)]: the handler runs when the promise is
    fulfilled, and its completion settles the new promise.  A rejection
    passes to the new promise, and so does never settling.  The world that
    the computation returns is the one the handler leaves once it has run;
    the handlers of a chain run in the order of the chain. *)
Definition then_ (promise : Promise) (onFulfilled : value -> M value)
  : M Promise :=
  match promise with
  | Fulfilled v => fun w =>
      let (c, w') := onFulfilled v w in (Normal (settle c), w')
  | Rejected e => mret (Rejected e)
  | Pending => mret Pending
  end.

(** The settlement of the promise that a computation returns. *)
Definition settles (out : completion Promise * world) (s : settlement)
  : Prop :=
  out.1 = Normal s.

(** [class ErrorWithResponse extends Error], lines 37-45: the message is
    [response.statusText] (the empty message of [Error] when that is
    [undefined]), and the field [response] the value passed in. *)
Definition ErrorWithResponse (response : value) : M value :=
  text ← get_statusText response;
  this ← alloc (OErrorWithResponse (default "" text) response);
  mret (VRef this).

(** ** The relational operators against a number *)

(** The conversion of a string to a number is the host's. *)
Class Host := StringToNumber : string -> number.

Section Coercion.

Context `{host : Host}.

Definition ToNumber (p : prim) : number :=
  match p with
  | PUndefined => NaN
  | PNull => of_Z 0
  | PBool true => of_Z 1
  | PBool false => of_Z 0
  | PNum n => n
  | PStr s => StringToNumber s
  end.

(** [x >= n] and [x <= n] for a number [n] *)
Definition js_ge (x : prim) (n : number) : bool := number_ge (ToNumber x) n.
Definition js_le (x : prim) (n : number) : bool := number_le (ToNumber x) n.

(** The condition of line 65, [status >= 200 && status <= 299]; the two
    comparisons have no effect, so that [&&] is the conjunction of their
    results. *)
Definition is2xx (status : prim) : bool :=
  js_ge status (of_Z 200) && js_le status (of_Z 299).

(** ** The middlewares *)

Definition Middleware : Type := Promise -> M Promise.

(** [checkStatus], lines 61-71 *)
Definition checkStatus : Middleware := fun promise =>
  then_ promise (fun response =>
    status ← get_status response;
    if js_ge status (of_Z 200) && js_le status (of_Z 299) then
      mret response
    else
      e ← ErrorWithResponse response;
      mret (Promise_reject e)).

End Coercion.

(** [parseJSON], lines 81-85 *)
Definition parseJSON : Middleware := fun promise =>
  then_ promise (fun response =>
    call_json response).

(** ** A host conversion and a store for the examples

    [decimalToNumber] agrees with the conversion of a string to a number on
    the strings of at most 15 decimal digits, whose value a double holds
    exactly (the empty string converts to 0); it is used to run the
    middlewares on concrete responses only, and no theorem that is stated
    for every host depends on what it does to the other strings. *)

Definition digit (a : Ascii.ascii) : option Z :=
  let n := Z.of_N (Ascii.N_of_ascii a) in
  if ((48 <=? n) && (n <=? 57))%Z then Some (n - 48)%Z else None.

Fixpoint digits (acc : Z) (s : string) : option Z :=
  match s with
  | EmptyString => Some acc
  | String a s' =>
      match digit a with
      | Some d => digits (10 * acc + d) s'
      | None => None
      end
  end.

Definition decimalToNumber : Host := fun s =>
  match digits 0 s with
  | Some z => of_Z z
  | None => NaN
  end.

(** A response with the given status, status text and [json] completion. *)
Definition response_of (st : prim) (text : string) (body : completion value)
  : Response :=
  {| status := st; statusText := text; json := body |}.

(** The store of the examples: the response at reference 1, the syntax
    error of a parser at reference 2, and an empty log. *)
Definition world_of (resp : Response) : world :=
  {| heap := <[2%positive := ONativeError "SyntaxError"]>
               {[ 1%positive := OResponse resp ]};
     jsonCalls := [] |}.

Definition parsed : value := VPrim (PStr "parsed").
Definition syntaxError : value := VRef 2.

(** Responses whose body parses, of each status the examples use. *)
Definition withStatus (st : prim) (text : string) : Response :=
  response_of st text (Normal (VPromise (Fulfilled parsed))).

Definition ok : Response := withStatus (PNum (of_Z 200)) "OK".
Definition notFound : Response := withStatus (PNum (of_Z 404)) "Not Found".

(** A response whose body does not parse: [json] returns a promise rejected
    with the syntax error. *)
Definition malformed : Response :=
  response_of (PNum (of_Z 200)) "OK" (Normal (VPromise (Rejected syntaxError))).

(** ** The middleware of the documentation, [displayError]

    Lines 16-25 give a middleware as the example of the two rules of lines
    8-12.  It uses three more items of the runtime: [promise.catch], the
    strict equality [===] against a number, and [window.alert], whose
    effect is kept as a log of the values shown, beside the world. *)

(** Strict equality of two numbers: NaN equals nothing, the two zeros are
    equal. *)
Definition number_eq (x y : number) : bool :=
  match x, y with
  | Fin a, Fin b => Qeq_bool a b
  | PosInfinity, PosInfinity => true
  | NegInfinity, NegInfinity => true
  | _, _ => false
  end.

(** [x === n] for a number [n]: no conversion, a value of another type is
    not equal. *)
Definition js_strict_eq (x : prim) (n : number) : bool :=
  match x with
  | PNum m => number_eq m n
  | _ => false
  end.

(** The message that the host gives to its own error of a given name. *)
Class ErrorMessages := nativeMessage : string -> string.

(** [error.response]: the field of an [ErrorWithResponse]; the other
    objects of the store do not have it. *)
Definition get_response (error : value) : M value :=
  match error with
  | VPrim PUndefined | VPrim PNull => throwTypeError
  | VRef l => fun w =>
      match heap w !! l with
      | Some (OErrorWithResponse _ response) => (Normal response, w)
      | _ => (Normal (VPrim PUndefined), w)
      end
  | _ => mret (VPrim PUndefined)
  end.

(** [error.message] *)
Definition get_message `{msgs : ErrorMessages} (error : value) : M prim :=
  match error with
  | VPrim PUndefined | VPrim PNull => throwTypeError
  | VRef l => fun w =>
      match heap w !! l with
      | Some (OErrorWithResponse message _) => (Normal (PStr message), w)
      | Some (ONativeError name) => (Normal (PStr (nativeMessage name)), w)
      | _ => (Normal PUndefined, w)
      end
  | _ => mret PUndefined
  end.

(** The world and the values that [window.alert] has shown, the latest
    first. *)
Record page := {
  store : world;
  alerts : list prim
}.

Definition P (A : Type) : Type := page -> completion A * page.

#[global] Instance P_ret : MRet P := fun A a pg => (Normal a, pg).

#[global] Instance P_bind : MBind P := fun A B f m pg =>
  match m pg with
  | (Normal a, pg') => f a pg'
  | (Throw e, pg') => (Throw e, pg')
  end.

(** A computation on the world, run on the world of the page. *)
Definition lift {A} (m : M A) : P A := fun pg =>
  let (c, w') := m (store pg) in
  (c, {| store := w'; alerts := alerts pg |}).

Definition window_alert (x : prim) : P unit := fun pg =>
  (Normal tt, {| store := store pg; alerts := x :: alerts pg |}).

(** [promise.catch(onRejected)]: the handler runs when the promise is
    rejected, and its completion settles the new promise; a fulfilment
    passes to the new promise. *)
Definition catch_ (promise : Promise) (onRejected : value -> P value)
  : P Promise :=
  match promise with
  | Fulfilled v => mret (Fulfilled v)
  | Rejected e => fun pg =>
      let (c, pg') := onRejected e pg in (Normal (settle c), pg')
  | Pending => mret Pending
  end.

(** [displayError], lines 16-25 *)
Definition displayError `{msgs : ErrorMessages} (promise : Promise) : P Promise :=
  catch_ promise (fun error =>
    response ← lift (get_response error);
    status ← lift (get_status response);
    (if js_strict_eq status (of_Z 400) then
       message ← lift (get_message error);
       window_alert message
     else
       mret tt);;
    mret (Promise_reject error)).

(** The messages of the examples. *)
Definition noMessages : ErrorMessages := fun _ => "".

Definition badRequest : Response := withStatus (PNum (of_Z 400)) "Bad Request".

(** The page of the examples: the store of [world_of] and no alert yet. *)
Definition page_of (resp : Response) : page :=
  {| store := world_of resp; alerts := [] |}.

(** ** Kinds of values and worlds for the statements *)

(** [undefined] and [null], the values no property can be read of. *)
Definition nullish (v : value) : bool :=
  match v with
  | VPrim PUndefined | VPrim PNull => true
  | _ => false
  end.

(** A reference that the store maps to a response. *)
Definition isResponse (w : world) (v : value) : bool :=
  match v with
  | VRef l =>
      match heap w !! l with
      | Some (OResponse _) => true
      | _ => false
      end
  | _ => false
  end.

(** A reference that the store maps to an [ErrorWithResponse]. *)
Definition isErrorWithResponse (w : world) (e : value) : bool :=
  match e with
  | VRef l =>
      match heap w !! l with
      | Some (OErrorWithResponse _ _) => true
      | _ => false
      end
  | _ => false
  end.

(** The world after the allocation of one object. *)
Definition with_new (w : world) (o : object) : world :=
  {| heap := <[fresh (dom (heap w)) := o]> (heap w);
     jsonCalls := jsonCalls w |}.

Definition page_with_new (pg : page) (o : object) : page :=
  {| store := with_new (store pg) o; alerts := alerts pg |}.

(** The statuses that [=== 400] accepts: the numbers equal to 400. *)
Definition is400 (st : prim) : Prop :=
  exists q, st = PNum (Fin q) /\ q == 400.

(** The store of [world_of] with an [ErrorWithResponse] for its response
    at reference 3, and no alert yet. *)
Definition page_with_error (resp : Response) : page :=
  {| store := with_new (world_of resp)
                (OErrorWithResponse (statusText resp) (VRef 1));
     alerts := [] |}.

(** ** The status field in full

    The record [Response] gives the field [status] a primitive of [prim].
    A field can hold three more kinds of value: a Symbol, a BigInt and an
    object.  A response whose field [status] holds one of these is
    described by an entry of a table, kept beside the store under the
    reference of the response; the entry then stands for the field.  The
    source reads the field and never writes it, so the table is a
    parameter of the middleware. *)

(** The values that are not objects. *)
Inductive scalar :=
| CPrim (p : prim)
| CSymbol
| CBigInt (z : Z).

(** An object stands for the completion of its conversion to a primitive
    ([valueOf], then [toString]), taken to be the same at each conversion:
    the value it converts to, or the value that the conversion throws. *)
Inductive statusValue :=
| SScalar (c : scalar)
| SObject (conversion : completion scalar).

(** The value that the field [status] of the response at [r] holds. *)
Definition statusOf (exotic : gmap loc statusValue) (r : loc)
    (resp : Response) : statusValue :=
  default (SScalar (CPrim (status resp))) (exotic !! r).

(** [response.status] with the table: as [get_status], but for a response
    that has an entry. *)
Definition get_status_any (exotic : gmap loc statusValue) (response : value)
  : M statusValue :=
  match response with
  | VRef l => fun w =>
      match heap w !! l with
      | Some (OResponse r) => (Normal (statusOf exotic l r), w)
      | _ => (Normal (SScalar (CPrim PUndefined)), w)
      end
  | _ => p ← get_status response; mret (SScalar (CPrim p))
  end.

(** The conversion of an operand of [>=] or [<=] to a primitive. *)
Definition ToPrimitive (s : statusValue) : M scalar :=
  match s with
  | SScalar c => mret c
  | SObject (Normal c) => mret c
  | SObject (Throw e) => throw e
  end.

Section Comparison.

Context `{host : Host}.

(** The conversion of a primitive operand for the comparison against a
    number: a Symbol throws a TypeError; a BigInt is compared by its value;
    the other primitives are converted by [ToNumber]. *)
Definition ToNumeric (c : scalar) : M number :=
  match c with
  | CPrim p => mret (ToNumber p)
  | CSymbol => throwTypeError
  | CBigInt z => mret (of_Z z)
  end.

(** [x >= n] and [x <= n] for a number [n], with the conversions of [x]. *)
Definition any_ge (x : statusValue) (n : number) : M bool :=
  px ← ToPrimitive x; nx ← ToNumeric px; mret (number_ge nx n).

Definition any_le (x : statusValue) (n : number) : M bool :=
  px ← ToPrimitive x; nx ← ToNumeric px; mret (number_le nx n).

(** [a && b] on comparisons that can throw: [b] is evaluated only when [a]
    gives [true]. *)
Definition and_then (a b : M bool) : M bool :=
  a ≫= λ first : bool, if first then b else mret false.

(** [checkStatus], lines 61-71, for a status of any kind. *)
Definition checkStatusAny (exotic : gmap loc statusValue) : Middleware :=
  fun promise =>
  then_ promise (fun response =>
    status ← get_status_any exotic response;
    and_then (any_ge status (of_Z 200)) (any_le status (of_Z 299))
      ≫= λ inRange : bool,
    if inRange then
      mret response
    else
      e ← ErrorWithResponse response;
      mret (Promise_reject e)).




End Comparison.

(** The range check of line 65 on the number that a status converts to. *)
Definition inRange (x : number) : bool :=
  number_ge x (of_Z 200) && number_le x (of_Z 299).


(** The response of the examples that has an entry in a table; its record
    leaves the status undefined. *)
Definition exoticResponse : Response := withStatus PUndefined "".



(** * Properties *)

(** ** The comparison of numbers *)

Lemma number_lt_Fin (a b : Q) : number_lt (Fin a) (Fin b) <-> a < b.
Proof.
  unfold number_lt; simpl.
  destruct (Qle_bool b a) eqn:E; simpl.
  - apply Qle_bool_iff in E. split; [discriminate | intros H; lra].
  - split; [intros _ | reflexivity].
    destruct (Qlt_le_dec a b) as [H | H]; [exact H |].
    apply Qle_bool_iff in H. congruence.
Qed.

Lemma number_ge_Fin (a b : Q) : number_ge (Fin a) (Fin b) = true <-> b <= a.
Proof.
  unfold number_ge; simpl. rewrite <- Qle_bool_iff.
  destruct (Qle_bool b a); simpl; intuition congruence.
Qed.

Lemma number_le_Fin (a b : Q) : number_le (Fin a) (Fin b) = true <-> a <= b.
Proof.
  unfold number_le; simpl. rewrite <- Qle_bool_iff.
  destruct (Qle_bool a b); simpl; intuition congruence.
Qed.

(** [200 <= c] is the comparison that [c >= 200] makes. *)
Lemma number_le_ge (x y : number) : number_le x y = number_ge y x.
Proof. reflexivity. Qed.

(** A number below the first bound or above the second fails the
    conjunction of [>=] and [<=]. *)
Lemma number_out_of_range (c lo hi : number) :
  number_lt c lo \/ number_lt hi c ->
  number_ge c lo && number_le c hi = false.
Proof.
  unfold number_lt, number_ge, number_le.
  intros [E | E]; rewrite E; [reflexivity | apply andb_false_r].
Qed.

Lemma number_in_range (c lo hi : number) :
  number_le lo c = true /\ number_le c hi = true ->
  number_ge c lo && number_le c hi = true.
Proof.
  intros [H1 H2]. rewrite <- number_le_ge, H1, H2. reflexivity.
Qed.

(** A finite number fails the conjunction only below the first bound or
    above the second. *)
Lemma number_range_false_Fin (c lo hi : Q) :
  number_ge (Fin c) (Fin lo) && number_le (Fin c) (Fin hi) = false ->
  c < lo \/ hi < c.
Proof.
  intros E. apply andb_false_iff in E as [E | E].
  - left. destruct (Qlt_le_dec c lo) as [L | L]; [exact L |].
    apply number_ge_Fin in L. congruence.
  - right. destruct (Qlt_le_dec hi c) as [L | L]; [exact L |].
    apply number_le_Fin in L. congruence.
Qed.

(** ** The store *)

Lemma fresh_unused (h : gmap loc object) : h !! fresh (dom h) = None.
Proof. apply not_elem_of_dom, is_fresh. Qed.

Lemma alloc_keeps (h : gmap loc object) (o o' : object) (l : loc) :
  h !! l = Some o -> <[fresh (dom h) := o']> h !! l = Some o.
Proof.
  intros E. rewrite lookup_insert_ne; [exact E |].
  intros F. rewrite <- F, fresh_unused in E. discriminate.
Qed.

(** An object that an allocation brought to a reference unused before is
    the object allocated, at the fresh reference. *)
Lemma alloc_new (h : gmap loc object) (o o' : object) (l : loc) :
  h !! l = None -> <[fresh (dom h) := o']> h !! l = Some o ->
  l = fresh (dom h) /\ o = o'.
Proof.
  intros E F. destruct (decide (fresh (dom h) = l)) as [<- | N].
  - rewrite lookup_insert_eq in F. split; congruence.
  - rewrite lookup_insert_ne in F by exact N. congruence.
Qed.

(** Unfolds a middleware down to the reads of the store. *)
Ltac run :=
  unfold checkStatus, parseJSON, then_, ErrorWithResponse, call_json,
    get_status, get_statusText, alloc, throwTypeError, throw,
    mbind, mret, M_bind, M_ret; simpl.

(** ** [checkStatus] *)

Section CheckStatus.

Context `{host : Host}.

(** The two branches of the handler, for a promise fulfilled with a
    response. *)
Lemma checkStatus_then_branch (w : world) (r : loc) (resp : Response) :
  heap w !! r = Some (OResponse resp) ->
  is2xx (status resp) = true ->
  checkStatus (Fulfilled (VRef r)) w = (Normal (Fulfilled (VRef r)), w).
Proof.
  intros Hr Hc. unfold is2xx in Hc.
  run. rewrite Hr. simpl. rewrite Hc. reflexivity.
Qed.

Lemma checkStatus_else_branch (w : world) (r : loc) (resp : Response) :
  heap w !! r = Some (OResponse resp) ->
  is2xx (status resp) = false ->
  checkStatus (Fulfilled (VRef r)) w =
    (Normal (Rejected (VRef (fresh (dom (heap w))))),
     {| heap := <[fresh (dom (heap w)) :=
                    OErrorWithResponse (statusText resp) (VRef r)]> (heap w);
        jsonCalls := jsonCalls w |}).
Proof.
  intros Hr Hc. unfold is2xx in Hc.
  run. rewrite Hr. simpl. rewrite Hc. rewrite Hr. reflexivity.
Qed.

Lemma is2xx_number (c : number) :
  is2xx (PNum c) = number_ge c (of_Z 200) && number_le c (of_Z 299).
Proof. reflexivity. Qed.

(** The else branch without the name of the fresh reference: what the
    store holds at it and at the reference of the response. *)
Lemma checkStatus_else_rejects (w : world) (r : loc) (resp : Response) :
  heap w !! r = Some (OResponse resp) ->
  is2xx (status resp) = false ->
  exists (e : loc) (w' : world),
    checkStatus (Fulfilled (VRef r)) w = (Normal (Rejected (VRef e)), w') /\
    heap w !! e = None /\
    heap w' !! e = Some (OErrorWithResponse (statusText resp) (VRef r)) /\
    heap w' !! r = Some (OResponse resp) /\
    jsonCalls w' = jsonCalls w.
Proof.
  intros Hr Hc. eexists _, _. split.
  - apply (checkStatus_else_branch w r resp Hr Hc).
  - simpl. split; [apply fresh_unused |].
    split; [apply lookup_insert_eq |].
    split; [apply alloc_keeps, Hr | reflexivity].
Qed.

(** C1. A promise fulfilled with a response whose status is a number [c]
    with [c < 200] or [c > 299]: [checkStatus] returns a promise rejected
    with a new [ErrorWithResponse]; its field [response] is the reference of
    that response, which the store still maps to the same record, and its
    message is the [statusText] of the response. *)
Theorem checkStatus_rejects_outside_2xx
    (w : world) (r : loc) (resp : Response) (c : number) :
  heap w !! r = Some (OResponse resp) ->
  status resp = PNum c ->
  number_lt c (of_Z 200) \/ number_lt (of_Z 299) c ->
  exists (e : loc) (w' : world),
    checkStatus (Fulfilled (VRef r)) w = (Normal (Rejected (VRef e)), w') /\
    heap w !! e = None /\
    heap w' !! e = Some (OErrorWithResponse (statusText resp) (VRef r)) /\
    heap w' !! r = Some (OResponse resp).
Proof.
  intros Hr Hs Hc.
  destruct (checkStatus_else_rejects w r resp Hr) as (e & w' & E & F & G & K & _).
  - rewrite Hs, is2xx_number. apply number_out_of_range, Hc.
  - exists e, w'. auto.
Qed.

(** C2. A promise fulfilled with a response whose status is a number [c]
    with [200 <= c <= 299]: [checkStatus] returns a promise fulfilled with
    the same reference, and leaves the store and the log as they were: the
    response is neither changed nor copied. *)
Theorem checkStatus_passes_2xx
    (w : world) (r : loc) (resp : Response) (c : number) :
  heap w !! r = Some (OResponse resp) ->
  status resp = PNum c ->
  number_le (of_Z 200) c = true /\ number_le c (of_Z 299) = true ->
  checkStatus (Fulfilled (VRef r)) w = (Normal (Fulfilled (VRef r)), w).
Proof.
  intros Hr Hs Hc.
  apply (checkStatus_then_branch w r resp Hr).
  rewrite Hs, is2xx_number. apply number_in_range, Hc.
Qed.

(** C3. The bounds of the range check: status 199 is rejected, 200 and 299
    are passed on, 300 is rejected. *)
Theorem checkStatus_boundaries (w : world) (r : loc) (resp : Response) :
  heap w !! r = Some (OResponse resp) ->
  (status resp = PNum (of_Z 199) ->
     exists e, settles (checkStatus (Fulfilled (VRef r)) w) (Rejected e)) /\
  (status resp = PNum (of_Z 200) ->
     settles (checkStatus (Fulfilled (VRef r)) w) (Fulfilled (VRef r))) /\
  (status resp = PNum (of_Z 299) ->
     settles (checkStatus (Fulfilled (VRef r)) w) (Fulfilled (VRef r))) /\
  (status resp = PNum (of_Z 300) ->
     exists e, settles (checkStatus (Fulfilled (VRef r)) w) (Rejected e)).
Proof.
  intros Hr. unfold settles. repeat split; intros Hs.
  - eexists. rewrite (checkStatus_else_branch w r resp Hr); [reflexivity |].
    rewrite Hs. reflexivity.
  - rewrite (checkStatus_then_branch w r resp Hr); [reflexivity |].
    rewrite Hs. reflexivity.
  - rewrite (checkStatus_then_branch w r resp Hr); [reflexivity |].
    rewrite Hs. reflexivity.
  - eexists. rewrite (checkStatus_else_branch w r resp Hr); [reflexivity |].
    rewrite Hs. reflexivity.
Qed.

(** C4. A promise that is rejected with [e]: [checkStatus] and [parseJSON]
    each return a promise rejected with the same [e], and leave the store
    and the log as they were. *)
Theorem rejection_passes_through (w : world) (e : value) :
  checkStatus (Rejected e) w = (Normal (Rejected e), w) /\
  parseJSON (Rejected e) w = (Normal (Rejected e), w).
Proof. split; reflexivity. Qed.

End CheckStatus.

(** ** [parseJSON] *)

(** The handler calls [json] on the response and the promise returned is
    settled by the completion of that call; the store is not written. *)
Lemma parseJSON_fulfilled (w : world) (r : loc) (resp : Response) :
  heap w !! r = Some (OResponse resp) ->
  parseJSON (Fulfilled (VRef r)) w =
    (Normal (settle (json resp)),
     {| heap := heap w; jsonCalls := r :: jsonCalls w |}).
Proof. intros Hr. run. rewrite Hr. reflexivity. Qed.

(** C5. A promise fulfilled with a response whose [json] returns a promise
    fulfilled with [V]: [parseJSON] returns a promise fulfilled with [V]. *)
Theorem parseJSON_resolves_to_body
    (w : world) (r : loc) (resp : Response) (V : value) :
  heap w !! r = Some (OResponse resp) ->
  json resp = Normal (VPromise (Fulfilled V)) ->
  parseJSON (Fulfilled (VRef r)) w =
    (Normal (Fulfilled V),
     {| heap := heap w; jsonCalls := r :: jsonCalls w |}).
Proof.
  intros Hr Hj. rewrite (parseJSON_fulfilled w r resp Hr), Hj. reflexivity.
Qed.

(** C6. A promise fulfilled with a response whose [json] fails with [e], by
    returning a promise rejected with [e] or by throwing [e]: [parseJSON]
    returns a promise rejected with [e] itself, and writes nothing to the
    store. *)
Theorem parseJSON_propagates_parse_failure
    (w : world) (r : loc) (resp : Response) (e : value) :
  heap w !! r = Some (OResponse resp) ->
  json resp = Normal (VPromise (Rejected e)) \/ json resp = Throw e ->
  parseJSON (Fulfilled (VRef r)) w =
    (Normal (Rejected e),
     {| heap := heap w; jsonCalls := r :: jsonCalls w |}).
Proof.
  intros Hr [Hj | Hj];
    rewrite (parseJSON_fulfilled w r resp Hr), Hj; reflexivity.
Qed.

(** C9. [parseJSON] does not read the status.  For a promise fulfilled with
    a response, whatever its status: [json] is called once, on that
    response, and its completion settles the promise returned; a body that
    parses to [V] gives a promise fulfilled with [V]; the store is left as
    it was, so no [ErrorWithResponse] is made; and the promise returned is
    the same when the status of the response is replaced by any other. *)
Theorem parseJSON_ignores_status (w : world) (r : loc) (resp : Response) :
  heap w !! r = Some (OResponse resp) ->
  parseJSON (Fulfilled (VRef r)) w =
    (Normal (settle (json resp)),
     {| heap := heap w; jsonCalls := r :: jsonCalls w |}) /\
  (forall V, json resp = Normal (VPromise (Fulfilled V)) ->
     settles (parseJSON (Fulfilled (VRef r)) w) (Fulfilled V)) /\
  (forall st : prim,
     let resp' := response_of st (statusText resp) (json resp) in
     let w' := {| heap := <[r := OResponse resp']> (heap w);
                  jsonCalls := jsonCalls w |} in
     (parseJSON (Fulfilled (VRef r)) w').1 =
     (parseJSON (Fulfilled (VRef r)) w).1).
Proof.
  intros Hr. split; [apply (parseJSON_fulfilled w r resp Hr) |]. split.
  - intros V Hj. unfold settles.
    rewrite (parseJSON_fulfilled w r resp Hr), Hj. reflexivity.
  - intros st resp' w'.
    rewrite (parseJSON_fulfilled w r resp Hr).
    rewrite (parseJSON_fulfilled w' r resp'); [reflexivity |].
    apply lookup_insert_eq.
Qed.

(** ** The two middlewares together *)

Section Chain.

Context `{host : Host}.

(** C7. A promise fulfilled with a response of status 404:
    [parseJSON(checkStatus(promise))] is a promise rejected with a new
    [ErrorWithResponse] for that response, and the log of the calls of
    [json] is as it was: the method is not called. *)
Theorem chain_rejects_404 (w : world) (r : loc) (resp : Response) :
  heap w !! r = Some (OResponse resp) ->
  status resp = PNum (of_Z 404) ->
  exists (e : loc) (w' : world),
    (checkStatus (Fulfilled (VRef r)) ≫= parseJSON) w =
      (Normal (Rejected (VRef e)), w') /\
    heap w !! e = None /\
    heap w' !! e = Some (OErrorWithResponse (statusText resp) (VRef r)) /\
    jsonCalls w' = jsonCalls w.
Proof.
  intros Hr Hs.
  destruct (checkStatus_else_rejects w r resp Hr) as (e & w' & E & F & G & _ & K).
  - rewrite Hs. reflexivity.
  - exists e, w'. unfold mbind, M_bind. rewrite E. auto.
Qed.

End Chain.

(** ** Where an [ErrorWithResponse] comes from *)

Section Construction.

Context `{host : Host}.

Ltac new_object Hl :=
  let Hn := fresh "Hn" in
  intros Hn; apply (alloc_new _ _ _ _ Hl) in Hn as [-> Hn].

(** An [ErrorWithResponse] that the store holds after [checkStatus] and did
    not hold before was made by the else branch of the handler: the promise
    was fulfilled with the value it wraps, the status read from that value
    fails the condition of line 65, and the promise returned is rejected
    with that error. *)
Lemma checkStatus_new_error
    (w : world) (p : Promise) (l : loc) (m : string) (v : value) :
  heap w !! l = None ->
  heap (checkStatus p w).2 !! l = Some (OErrorWithResponse m v) ->
  p = Fulfilled v /\
  (checkStatus p w).1 = Normal (Rejected (VRef l)) /\
  exists st, get_status v w = (Normal st, w) /\ is2xx st = false.
Proof.
  intros Hl.
  destruct p as [v0 | e |]; [| simpl; congruence ..].
  unfold checkStatus, then_, mbind, M_bind.
  destruct v0 as [[| | b | n | s] | r | s]; simpl.
  1, 2: unfold throwTypeError, mbind, M_bind, alloc, throw; simpl;
        new_object Hl; discriminate.
  1, 2, 3, 5: unfold ErrorWithResponse, mbind, M_bind, alloc, mret, M_ret;
        simpl; new_object Hl; injection Hn as -> ->;
        repeat split; eexists; split; reflexivity.
  unfold ErrorWithResponse, get_statusText, mbind, M_bind, alloc, mret, M_ret.
  destruct (heap w !! r) as [[resp | m0 v0 | nm] |] eqn:Hr; simpl.
  1: fold (is2xx (status resp)); destruct (is2xx (status resp)) eqn:E; simpl;
     [congruence |].
  all: rewrite ?Hr; simpl; new_object Hl; injection Hn as -> ->;
       repeat split; unfold get_status; rewrite Hr;
       eexists; (split; [reflexivity | assumption || reflexivity]).
Qed.

(** [parseJSON] makes no [ErrorWithResponse]. *)
Lemma parseJSON_new_error
    (w : world) (p : Promise) (l : loc) (m : string) (v : value) :
  heap w !! l = None ->
  heap (parseJSON p w).2 !! l <> Some (OErrorWithResponse m v).
Proof.
  intros Hl.
  destruct p as [v0 | e |]; [| simpl; congruence ..].
  unfold parseJSON, then_, call_json.
  destruct v0 as [p0 | r | s]; simpl.
  1, 3: new_object Hl; discriminate.
  destruct (heap w !! r) as [[resp | m0 v0 | nm] |] eqn:Hr; simpl;
    [destruct (json resp); simpl; congruence | new_object Hl; discriminate ..].
Qed.

(** The constructor reads [statusText] and nothing else: it makes the error
    for every response. *)
Lemma ErrorWithResponse_of_response (w : world) (r : loc) (resp : Response) :
  heap w !! r = Some (OResponse resp) ->
  ErrorWithResponse (VRef r) w =
    (Normal (VRef (fresh (dom (heap w)))),
     {| heap := <[fresh (dom (heap w)) :=
                    OErrorWithResponse (statusText resp) (VRef r)]> (heap w);
        jsonCalls := jsonCalls w |}).
Proof. intros Hr. run. rewrite Hr. reflexivity. Qed.

(** C8. Every [ErrorWithResponse] that a middleware adds to the store wraps
    a value whose status is outside of the range 200 to 299.  If the store
    holds such an error after [checkStatus], at a reference unused before,
    then the promise was fulfilled with the wrapped value, the status read
    from it fails the condition of line 65 (for a response with a finite
    status [c]: [c < 200] or [299 < c]), and the promise returned is
    rejected with that error.  [parseJSON] adds no such error.  The
    constructor does not look at the status: applied to a response with a
    status in the range it makes the error all the same, and [checkStatus]
    leaves the store as it was for such a response. *)
Theorem ErrorWithResponse_only_outside_2xx
    (w : world) (p : Promise) (l : loc) (m : string) (v : value) :
  heap w !! l = None ->
  (heap (checkStatus p w).2 !! l = Some (OErrorWithResponse m v) ->
     p = Fulfilled v /\
     (checkStatus p w).1 = Normal (Rejected (VRef l)) /\
     (exists st, get_status v w = (Normal st, w) /\ is2xx st = false) /\
     (forall r resp, v = VRef r -> heap w !! r = Some (OResponse resp) ->
        is2xx (status resp) = false /\
        forall c, status resp = PNum (Fin c) -> c < 200 \/ 299 < c)) /\
  heap (parseJSON p w).2 !! l <> Some (OErrorWithResponse m v) /\
  (forall r resp,
     heap w !! r = Some (OResponse resp) -> is2xx (status resp) = true ->
     (exists e w',
        ErrorWithResponse (VRef r) w = (Normal (VRef e), w') /\
        heap w' !! e = Some (OErrorWithResponse (statusText resp) (VRef r))) /\
     (checkStatus (Fulfilled (VRef r)) w).2 = w).
Proof.
  intros Hl. split; [| split].
  - intros Hn.
    destruct (checkStatus_new_error w p l m v Hl Hn) as (-> & E & st & Hs & Hc).
    split; [reflexivity |]. split; [exact E |].
    split; [exists st; auto |].
    intros r resp -> Hr. unfold get_status in Hs. rewrite Hr in Hs.
    injection Hs as <-. split; [exact Hc |].
    intros c Hq. rewrite Hq in Hc. apply number_range_false_Fin in Hc.
    exact Hc.
  - apply parseJSON_new_error, Hl.
  - intros r resp Hr Hc. split.
    + eexists _, _. split; [apply (ErrorWithResponse_of_response w r resp Hr) |].
      apply lookup_insert_eq.
    + rewrite (checkStatus_then_branch w r resp Hr Hc). reflexivity.
Qed.

End Construction.

(** ** Further facts *)

(** A promise that never settles gives one that never settles, and no
    handler runs. *)
Lemma pending_stays_pending `{host : Host} (w : world) :
  checkStatus Pending w = (Normal Pending, w) /\
  parseJSON Pending w = (Normal Pending, w).
Proof. split; reflexivity. Qed.

(** A status that is a string is converted by the host before it is
    compared: a string that converts to a number of the range passes. *)
Lemma is2xx_string `{host : Host} (s : string) :
  is2xx (PStr s) = is2xx (PNum (StringToNumber s)).
Proof. reflexivity. Qed.

Example string_status_in_range :
  checkStatus (host := decimalToNumber) (Fulfilled (VRef 1))
    (world_of (withStatus (PStr "250") "OK")) =
  (Normal (Fulfilled (VRef 1)), world_of (withStatus (PStr "250") "OK")).
Proof. reflexivity. Qed.

(** The chain on a response of the range whose body parses is fulfilled
    with the parsed body, after one call of [json]. *)
Lemma chain_resolves_2xx `{host : Host}
    (w : world) (r : loc) (resp : Response) (V : value) :
  heap w !! r = Some (OResponse resp) ->
  is2xx (status resp) = true ->
  json resp = Normal (VPromise (Fulfilled V)) ->
  (checkStatus (Fulfilled (VRef r)) ≫= parseJSON) w =
    (Normal (Fulfilled V),
     {| heap := heap w; jsonCalls := r :: jsonCalls w |}).
Proof.
  intros Hr Hc Hj. unfold mbind at 1, M_bind at 1.
  rewrite (checkStatus_then_branch w r resp Hr Hc).
  rewrite (parseJSON_fulfilled w r resp Hr), Hj. reflexivity.
Qed.

(** ** The theorems at concrete responses *)

Lemma checkStatus_rejects_outside_2xx_witness :
  exists (e : loc) (w' : world),
    checkStatus (host := decimalToNumber) (Fulfilled (VRef 1))
      (world_of notFound) = (Normal (Rejected (VRef e)), w') /\
    heap (world_of notFound) !! e = None /\
    heap w' !! e = Some (OErrorWithResponse "Not Found" (VRef 1)) /\
    heap w' !! 1%positive = Some (OResponse notFound).
Proof.
  apply (checkStatus_rejects_outside_2xx (host := decimalToNumber)
           (world_of notFound) 1 notFound (of_Z 404));
    [reflexivity | reflexivity | right; reflexivity].
Defined.

Lemma checkStatus_passes_2xx_witness :
  checkStatus (host := decimalToNumber) (Fulfilled (VRef 1)) (world_of ok) =
  (Normal (Fulfilled (VRef 1)), world_of ok).
Proof.
  apply (checkStatus_passes_2xx (host := decimalToNumber)
           (world_of ok) 1 ok (of_Z 200));
    [reflexivity | reflexivity | split; reflexivity].
Defined.

Lemma checkStatus_boundaries_witness :
  let run st := checkStatus (host := decimalToNumber) (Fulfilled (VRef 1))
                  (world_of (withStatus (PNum (of_Z st)) "")) in
  (exists e, settles (run 199%Z) (Rejected e)) /\
  settles (run 200%Z) (Fulfilled (VRef 1)) /\
  settles (run 299%Z) (Fulfilled (VRef 1)) /\
  (exists e, settles (run 300%Z) (Rejected e)).
Proof.
  pose (at_status := fun st : Z =>
    checkStatus_boundaries (host := decimalToNumber)
      (world_of (withStatus (PNum (of_Z st)) "")) 1
      (withStatus (PNum (of_Z st)) "") eq_refl).
  split; [exact (proj1 (at_status 199%Z) eq_refl) |].
  split; [exact (proj1 (proj2 (at_status 200%Z)) eq_refl) |].
  split; [exact (proj1 (proj2 (proj2 (at_status 299%Z))) eq_refl) |].
  exact (proj2 (proj2 (proj2 (at_status 300%Z))) eq_refl).
Defined.

Lemma parseJSON_resolves_to_body_witness :
  parseJSON (Fulfilled (VRef 1)) (world_of ok) =
  (Normal (Fulfilled parsed),
   {| heap := heap (world_of ok); jsonCalls := [1%positive] |}).
Proof.
  apply (parseJSON_resolves_to_body (world_of ok) 1 ok parsed);
    reflexivity.
Defined.

Lemma parseJSON_propagates_parse_failure_witness :
  parseJSON (Fulfilled (VRef 1)) (world_of malformed) =
  (Normal (Rejected syntaxError),
   {| heap := heap (world_of malformed); jsonCalls := [1%positive] |}).
Proof.
  apply (parseJSON_propagates_parse_failure
           (world_of malformed) 1 malformed syntaxError);
    [reflexivity | left; reflexivity].
Defined.

Lemma parseJSON_ignores_status_witness :
  settles (parseJSON (Fulfilled (VRef 1)) (world_of notFound))
    (Fulfilled parsed).
Proof.
  exact (proj1 (proj2 (parseJSON_ignores_status
                         (world_of notFound) 1 notFound eq_refl))
           parsed eq_refl).
Defined.

Lemma chain_rejects_404_witness :
  exists (e : loc) (w' : world),
    (checkStatus (host := decimalToNumber) (Fulfilled (VRef 1)) ≫= parseJSON)
      (world_of notFound) = (Normal (Rejected (VRef e)), w') /\
    heap (world_of notFound) !! e = None /\
    heap w' !! e = Some (OErrorWithResponse "Not Found" (VRef 1)) /\
    jsonCalls w' = [].
Proof.
  apply (chain_rejects_404 (host := decimalToNumber)
           (world_of notFound) 1 notFound); reflexivity.
Defined.

Lemma ErrorWithResponse_only_outside_2xx_witness :
  (checkStatus (host := decimalToNumber) (Fulfilled (VRef 1))
     (world_of notFound)).1 = Normal (Rejected (VRef 3)) /\
  (checkStatus (host := decimalToNumber) (Fulfilled (VRef 1))
     (world_of ok)).2 = world_of ok.
Proof.
  split.
  - refine (proj1 (proj2 (proj1
      (ErrorWithResponse_only_outside_2xx (host := decimalToNumber)
         (world_of notFound) (Fulfilled (VRef 1)) 3 "Not Found" (VRef 1)
         eq_refl) _))).
    reflexivity.
  - refine (proj2 (proj2 (proj2
      (ErrorWithResponse_only_outside_2xx (host := decimalToNumber)
         (world_of ok) (Fulfilled (VRef 1)) 3 "" (VRef 1) eq_refl))
      1%positive ok _ _)); reflexivity.
Defined.

(** * Beyond responses: every input of the middlewares *)

Lemma number_range_Fin (c : number) (lo hi : Q) :
  number_ge c (Fin lo) && number_le c (Fin hi) = true <->
  exists q, c = Fin q /\ lo <= q /\ q <= hi.
Proof.
  split.
  - intros E. apply andb_true_iff in E as [E1 E2].
    destruct c as [| | q |]; try discriminate.
    exists q. split; [reflexivity |].
    split; [apply number_ge_Fin, E1 | apply number_le_Fin, E2].
  - intros (q & -> & E1 & E2). apply andb_true_iff.
    split; [apply number_ge_Fin, E1 | apply number_le_Fin, E2].
Qed.

Lemma isResponse_true (w : world) (v : value) :
  isResponse w v = true <->
  exists r resp, v = VRef r /\ heap w !! r = Some (OResponse resp).
Proof.
  split.
  - destruct v as [p | r | s]; simpl; try discriminate.
    destruct (heap w !! r) as [[resp | m v | nm] |] eqn:E; try discriminate.
    intros _. exists r, resp. auto.
  - intros (r & resp & -> & E). simpl. rewrite E. reflexivity.
Qed.

Lemma isResponse_false (w : world) (r : loc) (resp : Response) :
  heap w !! r = Some (OResponse resp) -> isResponse w (VRef r) = false ->
  False.
Proof. simpl. intros ->. discriminate. Qed.

(** ** [checkStatus] on any promise *)

Section CheckStatusTotal.

Context `{host : Host}.

(** The four ways in which the handler of [checkStatus] ends, for a
    promise fulfilled with any value: a response of the range is passed on;
    [undefined] and [null] make the read of [status] throw; a response
    outside of the range is wrapped with its status text; any other value
    is wrapped with the empty message. *)
Lemma checkStatus_fulfilled_cases (w : world) (v : value) :
  (exists r resp,
     v = VRef r /\ heap w !! r = Some (OResponse resp) /\
     is2xx (status resp) = true /\
     checkStatus (Fulfilled v) w = (Normal (Fulfilled v), w))
  \/
  exists o,
    checkStatus (Fulfilled v) w =
      (Normal (Rejected (VRef (fresh (dom (heap w))))), with_new w o) /\
    (nullish v = true /\ o = ONativeError "TypeError"
     \/
     (exists r resp,
        v = VRef r /\ heap w !! r = Some (OResponse resp) /\
        is2xx (status resp) = false /\
        o = OErrorWithResponse (statusText resp) v)
     \/
     nullish v = false /\ isResponse w v = false /\
     o = OErrorWithResponse "" v).
Proof.
  destruct v as [[| | b | n | s] | r | s].
  1, 2: right; eexists; split; [reflexivity |]; left; auto.
  1, 2, 3, 5: right; eexists; split; [reflexivity |]; right; right; auto.
  destruct (heap w !! r) as [[resp | m0 v0 | nm] |] eqn:Hr.
  1: destruct (is2xx (status resp)) eqn:E.
  1: left; exists r, resp; repeat split; auto;
     apply (checkStatus_then_branch w r resp Hr E).
  1: right; eexists; split;
     [apply (checkStatus_else_branch w r resp Hr E) |]; right; left;
     exists r, resp; auto.
  all: right; eexists; split;
    [run; rewrite Hr; simpl; rewrite Hr; reflexivity |]; right; right;
    simpl; rewrite Hr; auto.
Qed.

(** X1. [checkStatus] keeps the chain alive (rule 1 of lines 8-12): the
    call returns a promise and never throws, whatever the promise was
    fulfilled with, and the promise returned stays pending only if the
    promise passed in does. *)
Theorem checkStatus_keeps_chain_alive (w : world) (p : Promise) :
  exists q, (checkStatus p w).1 = Normal q /\ (q = Pending <-> p = Pending).
Proof.
  destruct p as [v | e |].
  - destruct (checkStatus_fulfilled_cases w v)
      as [(r & resp & _ & _ & _ & E) | (o & E & _)];
      rewrite E; eexists; (split; [reflexivity | split; discriminate]).
  - eexists. split; [reflexivity | split; discriminate].
  - eexists. split; [reflexivity | split; reflexivity].
Qed.

(** X2. What [checkStatus] leaves alone, for every promise: each object of
    the store stays as it is, at most one object is added (at the fresh
    reference), and [json] is not called. *)
Theorem checkStatus_frame (w : world) (p : Promise) :
  (forall l o, heap w !! l = Some o ->
     heap (checkStatus p w).2 !! l = Some o) /\
  (forall l, heap (checkStatus p w).2 !! l <> None ->
     heap w !! l <> None \/ l = fresh (dom (heap w))) /\
  jsonCalls (checkStatus p w).2 = jsonCalls w.
Proof.
  destruct p as [v | e |];
    [| simpl; repeat split; auto ..].
  destruct (checkStatus_fulfilled_cases w v)
    as [(r & resp & _ & _ & _ & E) | (o & E & _)];
    rewrite E; simpl; [repeat split; auto |].
  split; [intros l o' Hl; apply alloc_keeps, Hl |].
  split; [| reflexivity].
  intros l Hl. destruct (decide (fresh (dom (heap w)) = l)) as [<- | N];
    [right; reflexivity | left].
  rewrite lookup_insert_ne in Hl by exact N. exact Hl.
Qed.

(** X3. A promise fulfilled with [undefined] or [null]: the read of
    [status] throws, and [checkStatus] returns a promise rejected with the
    TypeError of the host, not with an [ErrorWithResponse]. *)
Theorem checkStatus_rejects_nullish (w : world) (v : value) :
  nullish v = true ->
  exists (e : loc) (w' : world),
    checkStatus (Fulfilled v) w = (Normal (Rejected (VRef e)), w') /\
    heap w !! e = None /\
    heap w' !! e = Some (ONativeError "TypeError").
Proof.
  intros Hv.
  exists (fresh (dom (heap w))), (with_new w (ONativeError "TypeError")).
  split; [destruct v as [[| | | |] | |]; try discriminate; reflexivity |].
  split; [apply fresh_unused | apply lookup_insert_eq].
Qed.

(** X4. A promise fulfilled with a value that is neither nullish nor a
    response (a string, a number, an object without [status]): the status
    read is [undefined], and [checkStatus] returns a promise rejected with
    an [ErrorWithResponse] that wraps this value and has the empty
    message. *)
Theorem checkStatus_wraps_other_values (w : world) (v : value) :
  nullish v = false -> isResponse w v = false ->
  exists (e : loc) (w' : world),
    checkStatus (Fulfilled v) w = (Normal (Rejected (VRef e)), w') /\
    heap w !! e = None /\
    heap w' !! e = Some (OErrorWithResponse "" v).
Proof.
  intros Hn Hr.
  destruct (checkStatus_fulfilled_cases w v)
    as [(r & resp & -> & E2 & _) | (o & E & [[N _] | [R | (_ & _ & ->)]])].
  - destruct (isResponse_false w r resp E2 Hr).
  - congruence.
  - destruct R as (r & resp & -> & E2 & _).
    destruct (isResponse_false w r resp E2 Hr).
  - eexists _, _. split; [exact E |].
    split; [apply fresh_unused | apply lookup_insert_eq].
Qed.

(** X5. For a response, the promise that [checkStatus] returns is fulfilled
    exactly when the status, converted to a number, is a finite [q] with
    [200 <= q <= 299], and rejected exactly when it is not: a status of
    199.5 or 299.5 is rejected, and so are NaN and the infinities. *)
Theorem checkStatus_fulfils_iff (w : world) (r : loc) (resp : Response) :
  heap w !! r = Some (OResponse resp) ->
  (settles (checkStatus (Fulfilled (VRef r)) w) (Fulfilled (VRef r)) <->
   exists q, ToNumber (status resp) = Fin q /\ 200 <= q /\ q <= 299) /\
  ((exists e, settles (checkStatus (Fulfilled (VRef r)) w) (Rejected e)) <->
   ~ exists q, ToNumber (status resp) = Fin q /\ 200 <= q /\ q <= 299).
Proof.
  intros Hr. unfold settles.
  assert (R : is2xx (status resp) = true <->
              exists q, ToNumber (status resp) = Fin q /\ 200 <= q /\ q <= 299)
    by apply number_range_Fin.
  destruct (is2xx (status resp)) eqn:E.
  - rewrite (checkStatus_then_branch w r resp Hr E). simpl. split.
    + split; [intros _; apply R; reflexivity | reflexivity].
    + split; [intros [e ?]; discriminate |].
      intros N. destruct N. apply R. reflexivity.
  - rewrite (checkStatus_else_branch w r resp Hr E). simpl. split.
    + split; [discriminate | intros Q; apply R in Q; discriminate].
    + split; [intros _ Q; apply R in Q; discriminate | eauto].
Qed.

(** X6. [checkStatus] applied to the promise that [checkStatus] returned
    changes nothing: the promise and the world are those of the first
    application, and no second error is made. *)
Theorem checkStatus_idempotent (w : world) (p : Promise) :
  (checkStatus p ≫= checkStatus) w = checkStatus p w.
Proof.
  unfold mbind at 1, M_bind at 1.
  destruct p as [v | e |]; [| reflexivity ..].
  destruct (checkStatus_fulfilled_cases w v)
    as [(r & resp & _ & _ & _ & E) | (o & E & _)]; rewrite E.
  - exact E.
  - reflexivity.
Qed.

(** X7. Two calls of [checkStatus] on a response outside of the range make
    two errors: the references differ, each error wraps the one response,
    and the response is still what it was. *)
Theorem checkStatus_makes_one_error_per_call
    (w : world) (r : loc) (resp : Response) :
  heap w !! r = Some (OResponse resp) ->
  is2xx (status resp) = false ->
  exists (e1 e2 : loc) (w' : world),
    (q1 ← checkStatus (Fulfilled (VRef r));
     q2 ← checkStatus (Fulfilled (VRef r));
     mret (q1, q2)) w =
      (Normal (Rejected (VRef e1), Rejected (VRef e2)), w') /\
    e1 <> e2 /\
    heap w' !! e1 = Some (OErrorWithResponse (statusText resp) (VRef r)) /\
    heap w' !! e2 = Some (OErrorWithResponse (statusText resp) (VRef r)) /\
    heap w' !! r = Some (OResponse resp).
Proof.
  intros Hr Hc.
  destruct (checkStatus_else_rejects w r resp Hr Hc)
    as (e1 & w1 & E1 & F1 & G1 & K1 & _).
  destruct (checkStatus_else_rejects w1 r resp K1 Hc)
    as (e2 & w2 & E2 & F2 & G2 & K2 & _).
  exists e1, e2, w2. unfold mbind, M_bind. rewrite E1, E2.
  split; [reflexivity |].
  split; [intros ->; congruence |].
  split; [| auto].
  rewrite (checkStatus_else_branch w1 r resp K1 Hc) in E2.
  injection E2 as <- <-. simpl. apply alloc_keeps, G1.
Qed.

End CheckStatusTotal.

(** ** The constructor on any value *)

(** The status text that the constructor reads off a value that is not
    nullish. *)
Lemma get_statusText_value (w : world) (v : value) :
  nullish v = false ->
  exists text,
    get_statusText v w = (Normal text, w) /\
    (forall r resp, v = VRef r -> heap w !! r = Some (OResponse resp) ->
       text = Some (statusText resp)) /\
    (isResponse w v = false -> text = None).
Proof.
  intros Hn.
  destruct v as [[| | b | n | s] | r | s]; simpl; try discriminate;
    try (exists None; repeat split; intros; congruence).
  destruct (heap w !! r) as [[resp | m0 v0 | nm] |] eqn:Hr.
  1: exists (Some (statusText resp)).
  2-4: exists None.
  all: split; [reflexivity |]; split;
    [intros r' resp' [= <-] F; congruence | congruence].
Qed.

(** X8. [new ErrorWithResponse(v)] for any value [v].  On [undefined] and
    [null] the read of [statusText] throws a TypeError and no
    [ErrorWithResponse] is made.  On any other value the constructor
    returns a new object whose field [response] is [v] itself and whose
    message is the status text of [v] when [v] is a response, and empty
    when it is not; the objects of the store stay as they are. *)
Theorem ErrorWithResponse_constructor (w : world) (v : value) :
  (nullish v = true ->
     exists e w', ErrorWithResponse v w = (Throw (VRef e), w') /\
       heap w !! e = None /\
       heap w' !! e = Some (ONativeError "TypeError")) /\
  (nullish v = false ->
     exists e w' m, ErrorWithResponse v w = (Normal (VRef e), w') /\
       heap w !! e = None /\
       heap w' !! e = Some (OErrorWithResponse m v) /\
       (forall l o, heap w !! l = Some o -> heap w' !! l = Some o) /\
       (forall r resp, v = VRef r -> heap w !! r = Some (OResponse resp) ->
          m = statusText resp) /\
       (isResponse w v = false -> m = "")).
Proof.
  split.
  - intros Hn. destruct v as [[| | | |] | |]; try discriminate;
      eexists _, _; (split; [reflexivity |]);
      (split; [apply fresh_unused | apply lookup_insert_eq]).
  - intros Hn.
    destruct (get_statusText_value w v Hn) as (text & E & T1 & T2).
    exists (fresh (dom (heap w))),
      (with_new w (OErrorWithResponse (default "" text) v)),
      (default "" text).
    split; [unfold ErrorWithResponse, mbind, M_bind; rewrite E; reflexivity |].
    split; [apply fresh_unused |].
    split; [apply lookup_insert_eq |].
    split; [intros l o Hl; apply alloc_keeps, Hl |].
    split.
    + intros r resp -> Hr. rewrite (T1 r resp eq_refl Hr). reflexivity.
    + intros N. rewrite (T2 N). reflexivity.
Qed.

(** ** [parseJSON] on any promise *)

(** Without a response to call [json] on, the call throws a TypeError. *)
Lemma parseJSON_fulfilled_other (w : world) (v : value) :
  isResponse w v = false ->
  parseJSON (Fulfilled v) w =
    (Normal (Rejected (VRef (fresh (dom (heap w))))),
     with_new w (ONativeError "TypeError")).
Proof.
  intros Hr. destruct v as [p | r | s]; try reflexivity.
  simpl in Hr. run.
  destruct (heap w !! r) as [[resp | m0 v0 | nm] |] eqn:E;
    try reflexivity; discriminate.
Qed.

(** X9. A promise fulfilled with a value that is not a response
    ([undefined], a parsed body, an error): the call of [json] throws, and
    [parseJSON] returns a promise rejected with the TypeError of the host;
    no call of [json] is logged. *)
Theorem parseJSON_rejects_without_json (w : world) (v : value) :
  isResponse w v = false ->
  exists (e : loc) (w' : world),
    parseJSON (Fulfilled v) w = (Normal (Rejected (VRef e)), w') /\
    heap w !! e = None /\
    heap w' !! e = Some (ONativeError "TypeError") /\
    jsonCalls w' = jsonCalls w.
Proof.
  intros Hr. eexists _, _.
  split; [apply (parseJSON_fulfilled_other w v Hr) |].
  split; [apply fresh_unused |].
  split; [apply lookup_insert_eq | reflexivity].
Qed.

(** X10. What [parseJSON] does to the world, for every promise: the call
    returns a promise and never throws; each object of the store stays as
    it is; and [json] is called once, on the response and with the store
    unchanged, when the promise is fulfilled with a response, and not at
    all otherwise. *)
Theorem parseJSON_frame (w : world) (p : Promise) :
  (exists q, (parseJSON p w).1 = Normal q) /\
  (forall l o, heap w !! l = Some o ->
     heap (parseJSON p w).2 !! l = Some o) /\
  ((exists r resp, p = Fulfilled (VRef r) /\
      heap w !! r = Some (OResponse resp) /\
      jsonCalls (parseJSON p w).2 = r :: jsonCalls w /\
      heap (parseJSON p w).2 = heap w)
   \/
   (forall v, p = Fulfilled v -> isResponse w v = false) /\
   jsonCalls (parseJSON p w).2 = jsonCalls w).
Proof.
  destruct p as [v | e |].
  2, 3: simpl; split; [eauto |]; split; [auto |]; right;
        split; [discriminate | reflexivity].
  destruct (isResponse w v) eqn:Hv.
  - apply isResponse_true in Hv as (r & resp & -> & Hr).
    rewrite (parseJSON_fulfilled w r resp Hr). simpl.
    split; [eauto |]. split; [auto |]. left. exists r, resp. auto.
  - rewrite (parseJSON_fulfilled_other w v Hv). simpl.
    split; [eauto |].
    split; [intros l o Hl; apply alloc_keeps, Hl |].
    right. split; [intros v' [= <-]; exact Hv | reflexivity].
Qed.

(** X11. The promise that [parseJSON] returns never settles in two cases
    only: the promise passed in never settles, or it is fulfilled with a
    response whose [json] returns a promise that never settles. *)
Theorem parseJSON_pending_iff (w : world) (p : Promise) :
  settles (parseJSON p w) Pending <->
  p = Pending \/
  exists r resp, p = Fulfilled (VRef r) /\
    heap w !! r = Some (OResponse resp) /\
    json resp = Normal (VPromise Pending).
Proof.
  unfold settles. destruct p as [v | e |].
  2: simpl; split; [discriminate | intros [? | (? & ? & ? & _)]; discriminate].
  2: simpl; split; auto.
  destruct (isResponse w v) eqn:Hv.
  - apply isResponse_true in Hv as (r & resp & -> & Hr).
    rewrite (parseJSON_fulfilled w r resp Hr). simpl. split.
    + intros E. right. exists r, resp. repeat split; auto.
      destruct (json resp) as [[? | ? | s] | ?]; simpl in E; congruence.
    + intros [? | (r' & resp' & [= <-] & Hr' & E)]; [discriminate |].
      assert (resp' = resp) as -> by congruence. rewrite E. reflexivity.
  - rewrite (parseJSON_fulfilled_other w v Hv). simpl. split.
    + discriminate.
    + intros [? | (r' & resp' & [= ->] & Hr' & _)]; [discriminate |].
      destruct (isResponse_false w r' resp' Hr' Hv).
Qed.

(** ** The chain in both orders *)

Section Pipeline.

Context `{host : Host}.

(** X12. [parseJSON(checkStatus(promise))] for a response of the range:
    [json] is called once and its completion settles the promise of the
    chain, so that a body that parses to [V] gives a promise fulfilled with
    [V] and a parser that fails with [e] a promise rejected with [e]; the
    store is not written. *)
Theorem chain_2xx_settles_by_body (w : world) (r : loc) (resp : Response) :
  heap w !! r = Some (OResponse resp) ->
  is2xx (status resp) = true ->
  (checkStatus (Fulfilled (VRef r)) ≫= parseJSON) w =
    (Normal (settle (json resp)),
     {| heap := heap w; jsonCalls := r :: jsonCalls w |}) /\
  (forall V, json resp = Normal (VPromise (Fulfilled V)) ->
     settles ((checkStatus (Fulfilled (VRef r)) ≫= parseJSON) w)
       (Fulfilled V)) /\
  (forall e, json resp = Normal (VPromise (Rejected e)) ->
     settles ((checkStatus (Fulfilled (VRef r)) ≫= parseJSON) w)
       (Rejected e)).
Proof.
  intros Hr Hc.
  assert (E : (checkStatus (Fulfilled (VRef r)) ≫= parseJSON) w =
              (Normal (settle (json resp)),
               {| heap := heap w; jsonCalls := r :: jsonCalls w |})).
  { unfold mbind at 1, M_bind at 1.
    rewrite (checkStatus_then_branch w r resp Hr Hc).
    apply (parseJSON_fulfilled w r resp Hr). }
  split; [exact E |].
  unfold settles. rewrite E.
  split; intros x ->; reflexivity.
Qed.

(** X13. In [parseJSON(checkStatus(promise))], for every promise, [json]
    is called at most once, and only on a response of the range: the body
    of a response that [checkStatus] rejects is never read. *)
Theorem chain_reads_body_only_of_2xx (w : world) (p : Promise) :
  jsonCalls ((checkStatus p ≫= parseJSON) w).2 = jsonCalls w \/
  exists r resp,
    p = Fulfilled (VRef r) /\ heap w !! r = Some (OResponse resp) /\
    is2xx (status resp) = true /\
    jsonCalls ((checkStatus p ≫= parseJSON) w).2 = r :: jsonCalls w.
Proof.
  unfold mbind, M_bind.
  destruct p as [v | e |]; [| left; reflexivity ..].
  destruct (checkStatus_fulfilled_cases w v)
    as [(r & resp & -> & Hr & Hc & E) | (o & E & _)]; rewrite E;
    cbv beta iota.
  - right. exists r, resp. rewrite (parseJSON_fulfilled w r resp Hr). auto.
  - left. reflexivity.
Qed.

(** X14. The other order, [checkStatus(parseJSON(promise))], on a response
    whose body does not parse: the promise is rejected with the error of
    the parser whatever the status is, also outside of the range, and no
    [ErrorWithResponse] is made. *)
Theorem reverse_chain_parse_failure_first
    (w : world) (r : loc) (resp : Response) (e : value) :
  heap w !! r = Some (OResponse resp) ->
  json resp = Normal (VPromise (Rejected e)) \/ json resp = Throw e ->
  (parseJSON (Fulfilled (VRef r)) ≫= checkStatus) w =
    (Normal (Rejected e),
     {| heap := heap w; jsonCalls := r :: jsonCalls w |}).
Proof.
  intros Hr Hj. unfold mbind at 1, M_bind at 1.
  rewrite (parseJSON_fulfilled w r resp Hr).
  destruct Hj as [-> | ->]; reflexivity.
Qed.

(** X15. The other order on a response whose body parses to a primitive
    (a string, a number, a boolean, null): [checkStatus] then runs on the
    parsed body, which has no status, and the promise is rejected whatever
    the status of the response is, also inside the range: with a TypeError
    for null, with an [ErrorWithResponse] that wraps the body otherwise. *)
Theorem reverse_chain_rejects_primitive_body
    (w : world) (r : loc) (resp : Response) (b : prim) :
  heap w !! r = Some (OResponse resp) ->
  json resp = Normal (VPromise (Fulfilled (VPrim b))) ->
  exists (e : loc) (w' : world),
    (parseJSON (Fulfilled (VRef r)) ≫= checkStatus) w =
      (Normal (Rejected (VRef e)), w') /\
    heap w !! e = None /\
    jsonCalls w' = r :: jsonCalls w /\
    heap w' !! e =
      Some (if nullish (VPrim b) then ONativeError "TypeError"
            else OErrorWithResponse "" (VPrim b)).
Proof.
  intros Hr Hj. unfold mbind at 1, M_bind at 1.
  rewrite (parseJSON_fulfilled w r resp Hr), Hj. simpl settle.
  set (w1 := {| heap := heap w; jsonCalls := r :: jsonCalls w |}).
  destruct (checkStatus_fulfilled_cases w1 (VPrim b))
    as [(r' & resp' & E & _) | (o & E & Ho)]; [discriminate |].
  rewrite E. eexists _, _. split; [reflexivity |].
  split; [apply (fresh_unused (heap w)) |].
  split; [reflexivity |].
  destruct Ho as [[N ->] | [(r' & resp' & E' & _) | (N & _ & ->)]];
    [| discriminate |]; rewrite N; apply lookup_insert_eq.
Qed.

End Pipeline.

(** * The middleware of the documentation *)

Lemma js_strict_eq_400 (st : prim) :
  js_strict_eq st (of_Z 400) = true <-> is400 st.
Proof.
  unfold is400. split.
  - destruct st as [| | b | [| | q |] | s]; try discriminate.
    simpl. intros E. exists q. split; [reflexivity |].
    apply Qeq_bool_iff, E.
  - intros (q & -> & E). simpl. apply Qeq_bool_iff, E.
Qed.

(** Unfolds [displayError] down to the reads of the store. *)
Ltac runP :=
  unfold displayError, catch_, lift, window_alert, get_response, get_message,
    get_status, throwTypeError, throw, alloc, mbind, mret, P_bind, P_ret,
    M_bind, M_ret; simpl.

Section DisplayError.

Context `{msgs : ErrorMessages}.

(** The handler on an [ErrorWithResponse] that wraps a response. *)
Lemma displayError_error_with_response
    (pg : page) (l r : loc) (m : string) (resp : Response) :
  heap (store pg) !! l = Some (OErrorWithResponse m (VRef r)) ->
  heap (store pg) !! r = Some (OResponse resp) ->
  displayError (Rejected (VRef l)) pg =
    (Normal (Rejected (VRef l)),
     {| store := store pg;
        alerts := if js_strict_eq (status resp) (of_Z 400)
                  then PStr m :: alerts pg else alerts pg |}).
Proof.
  intros Hl Hr. runP. rewrite Hl. simpl. rewrite Hr. simpl.
  destruct (js_strict_eq (status resp) (of_Z 400)); simpl.
  - rewrite Hl. destruct pg as [[h c] a]. reflexivity.
  - destruct pg as [[h c] a]. reflexivity.
Qed.

(** An error without the field [response]: the read of [status] throws. *)
Lemma displayError_other_error (pg : page) (e : value) :
  isErrorWithResponse (store pg) e = false ->
  displayError (Rejected e) pg =
    (Normal (Rejected (VRef (fresh (dom (heap (store pg)))))),
     page_with_new pg (ONativeError "TypeError")).
Proof.
  intros N. destruct e as [[| | b | n | s] | l | s]; try reflexivity.
  simpl in N. runP.
  destruct (heap (store pg) !! l) as [[resp | m0 v0 | nm] |] eqn:Hl;
    try reflexivity; discriminate.
Qed.

(** A rejection gives a rejection, whatever the error is. *)
Lemma displayError_rejected (pg : page) (e : value) :
  exists e' pg', displayError (Rejected e) pg = (Normal (Rejected e'), pg').
Proof.
  destruct e as [[| | b | n | s] | l | s]; try (eexists _, _; reflexivity).
  runP. destruct (heap (store pg) !! l) as [[resp | m v | nm] |] eqn:Hl;
    simpl; try (eexists _, _; reflexivity).
  destruct v as [[| | b | n | s] | r | s]; simpl;
    try (eexists _, _; reflexivity).
  destruct (heap (store pg) !! r) as [[resp | m' v' | nm] |] eqn:Hr;
    simpl; try (eexists _, _; reflexivity).
  destruct (js_strict_eq (status resp) (of_Z 400)); simpl;
    rewrite ?Hl; eexists _, _; reflexivity.
Qed.

(** X16. [displayError] follows the two rules of lines 8-12.  The call
    returns a promise and never throws; a fulfilment passes through with
    its value and without any effect; a rejection gives a rejected promise,
    never a fulfilled one; and the promise returned stays pending only if
    the promise passed in does. *)
Theorem displayError_follows_the_rules (pg : page) (p : Promise) :
  exists (q : Promise) (pg' : page),
    displayError p pg = (Normal q, pg') /\
    (forall v, p = Fulfilled v -> q = Fulfilled v /\ pg' = pg) /\
    (forall e, p = Rejected e -> exists e', q = Rejected e') /\
    (q = Pending <-> p = Pending).
Proof.
  destruct p as [v | e |].
  - exists (Fulfilled v), pg. split; [reflexivity |].
    split; [intros v' [= <-]; auto |]. split; [discriminate |].
    split; discriminate.
  - destruct (displayError_rejected pg e) as (e' & pg' & E).
    exists (Rejected e'), pg'. split; [exact E |].
    split; [discriminate |]. split; [eauto |]. split; discriminate.
  - exists Pending, pg. split; [reflexivity |].
    split; [discriminate |]. split; [discriminate |]. split; reflexivity.
Qed.

(** X17. A promise rejected with an [ErrorWithResponse] for a response:
    [displayError] returns a promise rejected with the same error and
    leaves the store as it is; it shows the message of the error once when
    the status of the response is a number equal to 400, and shows nothing
    for any other status, the string "400" included ([===] converts
    nothing). *)
Theorem displayError_alerts_on_400
    (pg : page) (l r : loc) (m : string) (resp : Response) :
  heap (store pg) !! l = Some (OErrorWithResponse m (VRef r)) ->
  heap (store pg) !! r = Some (OResponse resp) ->
  exists pg',
    displayError (Rejected (VRef l)) pg = (Normal (Rejected (VRef l)), pg') /\
    store pg' = store pg /\
    (is400 (status resp) -> alerts pg' = PStr m :: alerts pg) /\
    (~ is400 (status resp) -> alerts pg' = alerts pg) /\
    (forall s, status resp = PStr s -> alerts pg' = alerts pg).
Proof.
  intros Hl Hr. eexists. split;
    [apply (displayError_error_with_response pg l r m resp Hl Hr) |].
  simpl. split; [reflexivity |].
  destruct (js_strict_eq (status resp) (of_Z 400)) eqn:E.
  - split; [reflexivity |]. split.
    + intros N. destruct N. apply js_strict_eq_400, E.
    + intros s Hs. rewrite Hs in E. discriminate.
  - split; [| split; reflexivity].
    intros Q. apply js_strict_eq_400 in Q. congruence.
Qed.

(** X18. A promise rejected with an error that has no field [response] (the
    error of a failed transport, a thrown string): the handler throws when
    it reads [error.response.status], so that [displayError] returns a
    promise rejected with a new TypeError in place of the error it was
    given; nothing is shown. *)
Theorem displayError_replaces_error_without_response
    (pg : page) (e : value) :
  isErrorWithResponse (store pg) e = false ->
  exists (t : loc) (pg' : page),
    displayError (Rejected e) pg = (Normal (Rejected (VRef t)), pg') /\
    heap (store pg) !! t = None /\
    heap (store pg') !! t = Some (ONativeError "TypeError") /\
    alerts pg' = alerts pg /\
    (forall l o, e = VRef l -> heap (store pg) !! l = Some o -> t <> l).
Proof.
  intros N. eexists _, _. split; [apply (displayError_other_error pg e N) |].
  split; [apply fresh_unused |].
  split; [apply lookup_insert_eq |].
  split; [reflexivity |].
  intros l o -> Hl F. rewrite <- F, fresh_unused in Hl. discriminate.
Qed.

Section AfterCheckStatus.

Context `{host : Host}.

(** X19. [displayError(checkStatus(promise))] for a response.  A status of
    the range: the promise is fulfilled with the response and nothing is
    shown.  Any other status: the promise is rejected with the new
    [ErrorWithResponse], and the status text of the response is shown once
    if the status is a number equal to 400, and not shown otherwise. *)
Theorem displayError_after_checkStatus
    (pg : page) (r : loc) (resp : Response) :
  heap (store pg) !! r = Some (OResponse resp) ->
  exists (q : Promise) (pg' : page),
    (lift (checkStatus (Fulfilled (VRef r))) ≫= displayError) pg =
      (Normal q, pg') /\
    (is2xx (status resp) = true -> q = Fulfilled (VRef r) /\ pg' = pg) /\
    (is2xx (status resp) = false ->
       exists e, q = Rejected (VRef e) /\
         heap (store pg) !! e = None /\
         heap (store pg') !! e =
           Some (OErrorWithResponse (statusText resp) (VRef r)) /\
         (is400 (status resp) ->
            alerts pg' = PStr (statusText resp) :: alerts pg) /\
         (~ is400 (status resp) -> alerts pg' = alerts pg)).
Proof.
  intros Hr. unfold mbind, P_bind, lift.
  destruct (is2xx (status resp)) eqn:E.
  - rewrite (checkStatus_then_branch (store pg) r resp Hr E).
    exists (Fulfilled (VRef r)), pg. split; [destruct pg; reflexivity |].
    split; [auto | discriminate].
  - destruct (checkStatus_else_rejects (store pg) r resp Hr E)
      as (e & w' & E1 & F & G & K & _).
    rewrite E1.
    rewrite (displayError_error_with_response
               {| store := w'; alerts := alerts pg |} e r
               (statusText resp) resp G K).
    eexists _, _. split; [reflexivity |].
    split; [discriminate |]. intros _. exists e.
    split; [reflexivity |]. split; [exact F |].
    split; [exact G |]. simpl.
    destruct (js_strict_eq (status resp) (of_Z 400)) eqn:S.
    + split; [reflexivity |]. intros N. destruct N.
      apply js_strict_eq_400, S.
    + split; [| reflexivity]. intros Q.
      apply js_strict_eq_400 in Q. congruence.
Qed.

End AfterCheckStatus.

End DisplayError.

(** ** These theorems at concrete values *)

Lemma checkStatus_keeps_chain_alive_witness :
  exists q,
    (checkStatus (host := decimalToNumber) (Fulfilled (VPrim PNull))
       (world_of ok)).1 = Normal q /\
    (q = Pending <-> Fulfilled (VPrim PNull) = Pending).
Proof.
  exact (checkStatus_keeps_chain_alive (host := decimalToNumber)
           (world_of ok) (Fulfilled (VPrim PNull))).
Defined.

Lemma checkStatus_frame_witness :
  heap (checkStatus (host := decimalToNumber) (Fulfilled (VRef 1))
          (world_of notFound)).2 !! 1%positive = Some (OResponse notFound).
Proof.
  exact (proj1 (checkStatus_frame (host := decimalToNumber)
                  (world_of notFound) (Fulfilled (VRef 1)))
           1%positive (OResponse notFound) eq_refl).
Defined.

Lemma checkStatus_rejects_nullish_witness :
  exists (e : loc) (w' : world),
    checkStatus (host := decimalToNumber) (Fulfilled (VPrim PUndefined))
      (world_of ok) = (Normal (Rejected (VRef e)), w') /\
    heap (world_of ok) !! e = None /\
    heap w' !! e = Some (ONativeError "TypeError").
Proof.
  apply (checkStatus_rejects_nullish (host := decimalToNumber)
           (world_of ok) (VPrim PUndefined)).
  reflexivity.
Defined.

Lemma checkStatus_wraps_other_values_witness :
  exists (e : loc) (w' : world),
    checkStatus (host := decimalToNumber) (Fulfilled parsed) (world_of ok) =
      (Normal (Rejected (VRef e)), w') /\
    heap (world_of ok) !! e = None /\
    heap w' !! e = Some (OErrorWithResponse "" parsed).
Proof.
  apply (checkStatus_wraps_other_values (host := decimalToNumber)
           (world_of ok) parsed); reflexivity.
Defined.

Lemma checkStatus_fulfils_iff_witness :
  settles (checkStatus (host := decimalToNumber) (Fulfilled (VRef 1))
             (world_of ok)) (Fulfilled (VRef 1)).
Proof.
  apply (checkStatus_fulfils_iff (host := decimalToNumber)
           (world_of ok) 1 ok eq_refl).
  exists (inject_Z 200).
  split; [reflexivity | split; vm_compute; discriminate].
Defined.

Lemma checkStatus_makes_one_error_per_call_witness :
  exists (e1 e2 : loc) (w' : world),
    (q1 ← checkStatus (host := decimalToNumber) (Fulfilled (VRef 1));
     q2 ← checkStatus (host := decimalToNumber) (Fulfilled (VRef 1));
     mret (q1, q2)) (world_of notFound) =
      (Normal (Rejected (VRef e1), Rejected (VRef e2)), w') /\
    e1 <> e2 /\
    heap w' !! e1 = Some (OErrorWithResponse "Not Found" (VRef 1)) /\
    heap w' !! e2 = Some (OErrorWithResponse "Not Found" (VRef 1)) /\
    heap w' !! 1%positive = Some (OResponse notFound).
Proof.
  apply (checkStatus_makes_one_error_per_call (host := decimalToNumber)
           (world_of notFound) 1 notFound); reflexivity.
Defined.

Lemma ErrorWithResponse_constructor_witness :
  exists e w' m,
    ErrorWithResponse (VRef 1) (world_of ok) = (Normal (VRef e), w') /\
    heap (world_of ok) !! e = None /\
    heap w' !! e = Some (OErrorWithResponse m (VRef 1)) /\
    (forall l o, heap (world_of ok) !! l = Some o -> heap w' !! l = Some o) /\
    (forall r resp, VRef 1 = VRef r ->
       heap (world_of ok) !! r = Some (OResponse resp) ->
       m = statusText resp) /\
    (isResponse (world_of ok) (VRef 1) = false -> m = "").
Proof.
  exact (proj2 (ErrorWithResponse_constructor (world_of ok) (VRef 1))
           eq_refl).
Defined.

Lemma parseJSON_rejects_without_json_witness :
  exists (e : loc) (w' : world),
    parseJSON (Fulfilled parsed) (world_of ok) =
      (Normal (Rejected (VRef e)), w') /\
    heap (world_of ok) !! e = None /\
    heap w' !! e = Some (ONativeError "TypeError") /\
    jsonCalls w' = [].
Proof.
  apply (parseJSON_rejects_without_json (world_of ok) parsed).
  reflexivity.
Defined.

Lemma parseJSON_frame_witness :
  heap (parseJSON (Fulfilled (VRef 1)) (world_of ok)).2 !! 2%positive =
  Some (ONativeError "SyntaxError").
Proof.
  exact (proj1 (proj2 (parseJSON_frame (world_of ok) (Fulfilled (VRef 1))))
           2%positive (ONativeError "SyntaxError") eq_refl).
Defined.

Lemma parseJSON_pending_iff_witness :
  settles (parseJSON (Fulfilled (VRef 1))
             (world_of (response_of (PNum (of_Z 200)) "OK"
                          (Normal (VPromise Pending)))))
    Pending.
Proof.
  apply (parseJSON_pending_iff
           (world_of (response_of (PNum (of_Z 200)) "OK"
                        (Normal (VPromise Pending))))
           (Fulfilled (VRef 1))).
  right. eexists 1%positive, _. repeat split; reflexivity.
Defined.

Lemma chain_2xx_settles_by_body_witness :
  settles ((checkStatus (host := decimalToNumber) (Fulfilled (VRef 1))
              ≫= parseJSON) (world_of ok))
    (Fulfilled parsed).
Proof.
  exact (proj1 (proj2 (chain_2xx_settles_by_body (host := decimalToNumber)
                         (world_of ok) 1 ok eq_refl eq_refl))
           parsed eq_refl).
Defined.

Lemma reverse_chain_parse_failure_first_witness :
  (parseJSON (Fulfilled (VRef 1)) ≫=
     checkStatus (host := decimalToNumber))
    (world_of (response_of (PNum (of_Z 404)) "Not Found"
                 (Normal (VPromise (Rejected syntaxError))))) =
  (Normal (Rejected syntaxError),
   {| heap := heap (world_of (response_of (PNum (of_Z 404)) "Not Found"
                                (Normal (VPromise (Rejected syntaxError)))));
      jsonCalls := [1%positive] |}).
Proof.
  apply (reverse_chain_parse_failure_first (host := decimalToNumber)
           (world_of (response_of (PNum (of_Z 404)) "Not Found"
                        (Normal (VPromise (Rejected syntaxError)))))
           1 _ syntaxError eq_refl).
  left. reflexivity.
Defined.

Lemma reverse_chain_rejects_primitive_body_witness :
  exists (e : loc) (w' : world),
    (parseJSON (Fulfilled (VRef 1)) ≫=
       checkStatus (host := decimalToNumber)) (world_of ok) =
      (Normal (Rejected (VRef e)), w') /\
    heap (world_of ok) !! e = None /\
    jsonCalls w' = [1%positive] /\
    heap w' !! e = Some (OErrorWithResponse "" (VPrim (PStr "parsed"))).
Proof.
  apply (reverse_chain_rejects_primitive_body (host := decimalToNumber)
           (world_of ok) 1 ok (PStr "parsed")); reflexivity.
Defined.

Lemma displayError_follows_the_rules_witness :
  exists (q : Promise) (pg' : page),
    displayError (msgs := noMessages) (Rejected syntaxError)
      (page_of badRequest) = (Normal q, pg') /\
    (forall v, Rejected syntaxError = Fulfilled v ->
       q = Fulfilled v /\ pg' = page_of badRequest) /\
    (forall e, Rejected syntaxError = Rejected e -> exists e', q = Rejected e') /\
    (q = Pending <-> Rejected syntaxError = Pending).
Proof.
  exact (displayError_follows_the_rules (msgs := noMessages)
           (page_of badRequest) (Rejected syntaxError)).
Defined.

Lemma displayError_alerts_on_400_witness :
  exists pg',
    displayError (msgs := noMessages) (Rejected (VRef 3))
      (page_with_error badRequest) = (Normal (Rejected (VRef 3)), pg') /\
    alerts pg' = [PStr "Bad Request"].
Proof.
  destruct (displayError_alerts_on_400 (msgs := noMessages)
              (page_with_error badRequest) 3 1 "Bad Request" badRequest
              eq_refl eq_refl) as (pg' & E & _ & A & _).
  exists pg'. split; [exact E |].
  apply A. exists (inject_Z 400). split; reflexivity.
Defined.

Lemma displayError_replaces_error_without_response_witness :
  exists (t : loc) (pg' : page),
    displayError (msgs := noMessages) (Rejected syntaxError)
      (page_of badRequest) = (Normal (Rejected (VRef t)), pg') /\
    heap (store (page_of badRequest)) !! t = None /\
    heap (store pg') !! t = Some (ONativeError "TypeError") /\
    alerts pg' = [] /\
    (forall l o, syntaxError = VRef l ->
       heap (store (page_of badRequest)) !! l = Some o -> t <> l).
Proof.
  apply (displayError_replaces_error_without_response (msgs := noMessages)
           (page_of badRequest) syntaxError).
  reflexivity.
Defined.

Lemma displayError_after_checkStatus_witness :
  exists (q : Promise) (pg' : page),
    (lift (checkStatus (host := decimalToNumber) (Fulfilled (VRef 1))) ≫=
       displayError (msgs := noMessages)) (page_of badRequest) =
      (Normal q, pg') /\
    exists e, q = Rejected (VRef e) /\
      heap (store pg') !! e =
        Some (OErrorWithResponse "Bad Request" (VRef 1)) /\
      alerts pg' = [PStr "Bad Request"].
Proof.
  destruct (displayError_after_checkStatus (msgs := noMessages)
              (host := decimalToNumber) (page_of badRequest) 1 badRequest
              eq_refl) as (q & pg' & E & _ & R).
  destruct (R eq_refl) as (e & Q & _ & G & A & _).
  exists q, pg'. split; [exact E |]. exists e.
  split; [exact Q |]. split; [exact G |].
  apply A. exists (inject_Z 400). split; reflexivity.
Defined.

(** * The status field in full *)

(** Unfolds [checkStatusAny] down to the reads of the store. *)
Ltac runAny :=
  unfold checkStatusAny, then_, get_status_any, and_then, any_ge, any_le,
    ToPrimitive, ToNumeric, ErrorWithResponse, get_statusText, get_status,
    alloc, throwTypeError, throw, mbind, mret, M_bind, M_ret; simpl.

Section AnyStatus.

Context `{host : Host}.

(** On a promise that is not fulfilled with a response of the table,
    [checkStatusAny] is [checkStatus]: the table adds behaviour and changes
    none. *)
Lemma checkStatusAny_agrees
    (exotic : gmap loc statusValue) (w : world) (p : Promise) :
  (forall r, p = Fulfilled (VRef r) -> exotic !! r = None) ->
  checkStatusAny exotic p w = checkStatus p w.
Proof.
  intros Hx. destruct p as [v | e |]; [| reflexivity ..].
  destruct v as [[| | b | n | s] | r | s]; try reflexivity.
  runAny. unfold checkStatus. run.
  destruct (heap w !! r) as [[resp | m0 v0 | nm] |] eqn:Hr; simpl;
    try (rewrite Hr; reflexivity).
  unfold statusOf. rewrite (Hx r eq_refl). simpl.
  unfold js_ge, js_le.
  destruct (number_ge (ToNumber (status resp)) (of_Z 200)); simpl;
    [| rewrite Hr; reflexivity].
  destruct (number_le (ToNumber (status resp)) (of_Z 299)); simpl;
    [reflexivity | rewrite Hr; reflexivity].
Qed.



End AnyStatus.



(** More responses of the table: a BigInt of the range is passed on, and
    an object whose conversion throws the syntax error of the store gives a
    promise rejected with that error. *)
Example bigint_status_in_range :
  checkStatusAny (host := decimalToNumber)
    {[ 1%positive := SScalar (CBigInt 250) ]}
    (Fulfilled (VRef 1)) (world_of exoticResponse) =
  (Normal (Fulfilled (VRef 1)), world_of exoticResponse).
Proof. reflexivity. Qed.

Example object_status_throws :
  checkStatusAny (host := decimalToNumber)
    {[ 1%positive := SObject (Throw syntaxError) ]}
    (Fulfilled (VRef 1)) (world_of exoticResponse) =
  (Normal (Rejected syntaxError), world_of exoticResponse).
Proof. reflexivity. Qed.
